(** * hyperfunc: typed function definitions exported as chat-completion tools

    A shallow embedding of [src/index.ts]: the translator
    [hyperFunctionToTool], the registry [hyperStore] with its methods [set],
    [callTool] and [asTools], and the builder [hyper].

    The packages the module imports (zod, zod-to-json-schema, indoc) and the
    host's [JSON.parse] are interfaces here, one class per import; the
    definitions of the module are written once, over every implementation
    of them. *)

From Stdlib Require Import String Ascii List ZArith Bool Lia.
Import ListNotations.

Set Implicit Arguments.
Set Warnings "-register-all".

(* ------------------------------------------------------------------ *)
(** * JavaScript data *)
(* ------------------------------------------------------------------ *)

(** Values that travel through the module as [unknown]: parsed JSON,
    validated arguments, handler results, JSON-Schema documents.  Numbers
    are kept to the integers; no definition below computes with them. *)
Inductive JsValue : Type :=
| JUndefined
| JNull
| JBool (b : bool)
| JNumber (n : Z)
| JString (s : string)
| JArray (items : list JsValue)
| JObject (props : list (string * JsValue)).

(** A plain object: its own enumerable string-keyed properties, in the
    order [Object.entries] enumerates them.  Keys of an object are
    pairwise distinct. *)
Definition JsRecord (V : Type) : Type := list (string * V).
Definition JsObject : Type := JsRecord JsValue.

Module Obj.

Fixpoint lookup {V : Type} (k : string) (o : JsRecord V) : option V :=
  match o with
  | [] => None
  | (k', v) :: rest => if String.eqb k' k then Some v else lookup k rest
  end.

(** [k in o] *)
Definition has {V : Type} (k : string) (o : JsRecord V) : bool :=
  match lookup k o with Some _ => true | None => false end.

(** [o.k]: the property's value, [undefined] when there is none. *)
Definition get (k : string) (o : JsObject) : JsValue :=
  match lookup k o with Some v => v | None => JUndefined end.

(** [Object.entries(o)] *)
Definition entries {V : Type} (o : JsRecord V) : list (string * V) := o.

Definition keys {V : Type} (o : JsRecord V) : list string := map fst o.

End Obj.

(** What a [throw] carries.  [AssertionError] is the error of Node's
    [assert] (its generated message is not modelled); [Error message] is
    [new Error(message)]; [SyntaxError] is what [JSON.parse] raises;
    [Thrown] is any other thrown value. *)
Inductive JsError : Type :=
| AssertionError
| Error (message : string)
| SyntaxError (message : string)
| Thrown (v : JsValue).

(** The completion of an expression: a value, or an exception. *)
Inductive Completion (A : Type) : Type :=
| Normal (a : A)
| Throw (e : JsError).
Arguments Normal {A} a.
Arguments Throw {A} e.

(** The state a promise settles in. *)
Inductive Settlement : Type :=
| Fulfilled (v : JsValue)
| Rejected (reason : JsError).

(** [Map<string, V>]: entries in insertion order, keys compared as
    strings.  [set] on a key already present replaces the value where the
    entry stands; on a new key it appends the entry. *)
Module JsMap.

Definition t (V : Type) : Type := list (string * V).

Definition empty {V : Type} : t V := [].

Fixpoint set {V : Type} (k : string) (v : V) (m : t V) : t V :=
  match m with
  | [] => [(k, v)]
  | (k', v') :: rest =>
      if String.eqb k' k then (k, v) :: rest else (k', v') :: set k v rest
  end.

Fixpoint get {V : Type} (k : string) (m : t V) : option V :=
  match m with
  | [] => None
  | (k', v) :: rest => if String.eqb k' k then Some v else get k rest
  end.

(** [new Map(iterable)]: every entry is [set], in order. *)
Definition of_entries {V : Type} (es : list (string * V)) : t V :=
  fold_left (fun m e => set (fst e) (snd e) m) es empty.

(** [Array.from(m)] *)
Definition entries {V : Type} (m : t V) : list (string * V) := m.

Definition keys {V : Type} (m : t V) : list string := map fst m.

End JsMap.

(* ------------------------------------------------------------------ *)
(** * Strings *)
(* ------------------------------------------------------------------ *)

Definition nl : string := String "010"%char EmptyString.

(** [needle] occurs in [hay] as a contiguous run of characters. *)
Definition contains (needle hay : string) : Prop :=
  exists pre post : string, hay = (pre ++ needle ++ post)%string.

(** Space, and the control characters tab to carriage return. *)
Definition is_whitespace (c : ascii) : bool :=
  let n := nat_of_ascii c in
  Nat.eqb n 32 || (Nat.leb 9 n && Nat.leb n 13).

Fixpoint whitespace_free (s : string) : bool :=
  match s with
  | EmptyString => true
  | String c rest => negb (is_whitespace c) && whitespace_free rest
  end.

(** [strips_whitespace s t]: [t] is [s] with some whitespace characters
    removed, and nothing else changed. *)
Inductive strips_whitespace : string -> string -> Prop :=
| strips_done : strips_whitespace EmptyString EmptyString
| strips_keep (c : ascii) (s t : string) :
    strips_whitespace s t -> strips_whitespace (String c s) (String c t)
| strips_drop (c : ascii) (s t : string) :
    is_whitespace c = true ->
    strips_whitespace s t -> strips_whitespace (String c s) t.

(* ------------------------------------------------------------------ *)
(** * The imports *)
(* ------------------------------------------------------------------ *)

(** The host: the state handlers may read and write ([World]), and
    [JSON.parse], which returns the parsed value or throws. *)
Class JsRuntime : Type := {
  World : Type;
  JSON_parse : string -> Completion JsValue
}.

(** The result of [schema.safeParse(value)]. *)
Inductive SafeParseReturnType : Type :=
| SafeParseSuccess (data : JsValue)
| SafeParseError (error : JsValue).

(** zod: schema nodes, object schemas, [z.object] and [safeParse].
    [safeParse] reports a validation failure in its result; it can still
    throw (a schema with asynchronous parts parsed synchronously).  It is
    taken here as a function of the schema and the value: a schema whose
    refinements or transforms read or write the world is outside this
    interface, and nothing below speaks of the world across such a
    validation. *)
Class Zod : Type := {
  ZodFirstPartySchemaTypes : Type;
  AnyZodObject : Type;
  z_object : JsRecord ZodFirstPartySchemaTypes -> AnyZodObject;
  safeParse : AnyZodObject -> JsValue -> Completion SafeParseReturnType
}.

(** zod-to-json-schema: a schema to its JSON-Schema document. *)
Class ZodToJsonSchema (Z : Zod) : Type := {
  zodToJsonSchema : AnyZodObject -> JsObject
}.

(** @raphtlw/indoc: [ind] removes the indentation of a text. *)
Class Indoc : Type := {
  ind : string -> string
}.

(** Types of the openai package the module names. *)
Module OpenAI.

Definition FunctionParameters : Type := JsObject.

Record FunctionDefinition : Type := {
  name : string;
  description : string;
  parameters : FunctionParameters
}.

Module ChatCompletionTool.
Record t : Type := {
  function : FunctionDefinition;
  type : string
}.
End ChatCompletionTool.

Module ChatCompletionMessageToolCall.
Record Function : Type := {
  name : string;
  arguments : string
}.
Record t : Type := {
  id : string;
  function : Function;
  type : string
}.
End ChatCompletionMessageToolCall.

End OpenAI.

Definition ChatCompletionTool : Type := OpenAI.ChatCompletionTool.t.
Definition ChatCompletionMessageToolCall : Type :=
  OpenAI.ChatCompletionMessageToolCall.t.

(* ------------------------------------------------------------------ *)
(** * Running handlers *)
(* ------------------------------------------------------------------ *)

Section Dispatch.

Context {R : JsRuntime} {Z : Zod}.

(** A pending asynchronous computation: awaited, it runs the rest of its
    work on the world and settles. *)
Definition JsPromise : Type := World -> Settlement * World.

(** [Promise<unknown> | unknown] *)
Inductive Response : Type :=
| Value (v : JsValue)
| Pending (p : JsPromise).

(** [(args: unknown, context: Context) => Promise<unknown> | unknown]:
    a call works on the world, then returns or throws. *)
Definition Handler (Ctx : Type) : Type :=
  JsValue -> Ctx -> World -> Completion Response * World.

Record HyperFunctionData (Ctx : Type) : Type := {
  _description : string;
  _schema : AnyZodObject;
  _handler : Handler Ctx
}.

(** One call of a handler: which one, and what it was given. *)
Record Invocation (Ctx : Type) : Type := {
  invoked : Handler Ctx;
  with_args : JsValue;
  with_context : Ctx
}.

(** The state a dispatch runs on: the world, and the handler calls made
    so far, oldest first. *)
Record Machine (Ctx : Type) : Type := {
  world : World;
  calls : list (Invocation Ctx)
}.

(** Code that may throw and may call handlers. *)
Definition Exec (Ctx A : Type) : Type :=
  Machine Ctx -> Completion A * Machine Ctx.

Definition ret {Ctx A : Type} (a : A) : Exec Ctx A :=
  fun m => (Normal a, m).

Definition throw {Ctx A : Type} (e : JsError) : Exec Ctx A :=
  fun m => (Throw e, m).

Definition bind {Ctx A B : Type} (c : Exec Ctx A) (k : A -> Exec Ctx B)
  : Exec Ctx B :=
  fun m =>
    match c m with
    | (Normal a, m') => k a m'
    | (Throw e, m') => (Throw e, m')
    end.

(** A call that touches no handler and no state. *)
Definition eval {Ctx A : Type} (c : Completion A) : Exec Ctx A :=
  fun m => (c, m).

(** [assert(value)] on a value that is an object or [undefined]. *)
Definition assert {A : Type} (value : option A) : Completion A :=
  match value with
  | Some a => Normal a
  | None => Throw AssertionError
  end.

(** [h(args, context)] *)
Definition call {Ctx : Type} (h : Handler Ctx) (args : JsValue) (context : Ctx)
  : Exec Ctx Response :=
  fun m =>
    let (r, w) := h args context (world m) in
    (r, {| world := w;
           calls := calls m ++ [ {| invoked := h; with_args := args;
                                    with_context := context |} ] |}).

(** [await p] *)
Definition await {Ctx : Type} (p : JsPromise) : Exec Ctx JsValue :=
  fun m =>
    let (s, w) := p (world m) in
    (match s with Fulfilled v => Normal v | Rejected e => Throw e end,
     {| world := w; calls := calls m |}).

(** The promise an [async] method returns, settled: a returned value
    fulfils it, an exception rejects it. *)
Definition async {Ctx : Type} (body : Exec Ctx JsValue)
  : Machine Ctx -> Settlement * Machine Ctx :=
  fun m =>
    match body m with
    | (Normal v, m') => (Fulfilled v, m')
    | (Throw e, m') => (Rejected e, m')
    end.

End Dispatch.

Declare Scope exec_scope.
Delimit Scope exec_scope with exec.
Notation "x <- c ;; k" := (bind c (fun x => k))
  (at level 61, c at next level, right associativity) : exec_scope.

(* ------------------------------------------------------------------ *)
(** * src/index.ts *)
(* ------------------------------------------------------------------ *)

Section HyperFunc.

Context {R : JsRuntime} {Z : Zod} {J : ZodToJsonSchema Z} {I : Indoc}.
Variable Ctx : Type.

Local Open Scope exec_scope.

(** The object literal [{type: schema.type, properties: schema.properties,
    required: schema.required}]. *)
Definition pick_parameters (schema : JsObject) : OpenAI.FunctionParameters :=
  [ ("type"%string, Obj.get "type" schema);
    ("properties"%string, Obj.get "properties" schema);
    ("required"%string, Obj.get "required" schema) ].

Definition hyperFunctionToTool (name : string) (data : HyperFunctionData Ctx)
  : ChatCompletionTool :=
  let schema := zodToJsonSchema (_schema data) in
  let parameters : OpenAI.FunctionParameters :=
    if Obj.has "type" schema && Obj.has "properties" schema
       && Obj.has "required" schema
    then pick_parameters schema
    else [] in
  {| OpenAI.ChatCompletionTool.function :=
       {| OpenAI.name := name;
          OpenAI.description := _description data;
          OpenAI.parameters := parameters |};
     OpenAI.ChatCompletionTool.type := "function" |}.

(** The object [hyperStore] returns: its one field.  The methods below take
    it as [this]; [set], which mutates the map in place, returns the store
    as it is afterwards. *)
Record HyperStore : Type := {
  functions : JsMap.t (HyperFunctionData Ctx)
}.

Definition hyperStore (fns : JsRecord (HyperFunctionData Ctx)) : HyperStore :=
  {| functions := JsMap.of_entries (Obj.entries fns) |}.

Definition set (this : HyperStore) (name : string) (hf : HyperFunctionData Ctx)
  : HyperStore :=
  {| functions := JsMap.set name hf (functions this) |}.

(** The template literal handed to [ind], the name interpolated. *)
Definition bad_arguments_text (name : string) : string :=
  (nl ++ "        There was an issue with parsing the function arguments,"
      ++ nl ++ "        please rewrite it by calling the " ++ name
      ++ " function with the correct parameters.")%string.

(** [data.function.name] and [data.function.arguments] *)
Definition requested_name (data : ChatCompletionMessageToolCall) : string :=
  OpenAI.ChatCompletionMessageToolCall.name
    (OpenAI.ChatCompletionMessageToolCall.function data).

Definition requested_arguments (data : ChatCompletionMessageToolCall) : string :=
  OpenAI.ChatCompletionMessageToolCall.arguments
    (OpenAI.ChatCompletionMessageToolCall.function data).

(** The body of [callTool], statement by statement. *)
Definition callTool_body (this : HyperStore)
    (data : ChatCompletionMessageToolCall) (context : Ctx)
  : Exec Ctx JsValue :=
  hyperFunction <-
    eval (assert (JsMap.get (requested_name data) (functions this))) ;;
  parsed <- eval (JSON_parse (requested_arguments data)) ;;
  result <- eval (safeParse (_schema hyperFunction) parsed) ;;
  match result with
  | SafeParseError _ =>
      throw (Error (ind (bad_arguments_text (requested_name data))))
  | SafeParseSuccess validated =>
      response <- call (_handler hyperFunction) validated context ;;
      match response with
      | Pending p => await p
      | Value v => ret v
      end
  end.

Definition callTool (this : HyperStore)
    (data : ChatCompletionMessageToolCall) (context : Ctx)
  : Machine Ctx -> Settlement * Machine Ctx :=
  async (callTool_body this data context).

Definition asTools (this : HyperStore) : list ChatCompletionTool :=
  map (fun kv => hyperFunctionToTool (fst kv) (snd kv))
      (JsMap.entries (functions this)).

(** The builder.  The handler's static argument type is erased in the
    source by a cast; here every handler already takes a [JsValue]. *)
Definition hyper (description : string)
    (args : JsRecord ZodFirstPartySchemaTypes) (handler : Handler Ctx)
  : HyperFunctionData Ctx :=
  {| _schema := z_object args;
     _handler := handler;
     _description := description |}.

(** The store after [hyperStore fns] and then the [set] calls of [ops], in
    order. *)
Definition store_after (fns : JsRecord (HyperFunctionData Ctx))
    (ops : list (string * HyperFunctionData Ctx)) : HyperStore :=
  fold_left (fun s op => set s (fst op) (snd op)) ops (hyperStore fns).

(** The [function.name] of each descriptor, in order. *)
Definition tool_names (tools : list ChatCompletionTool) : list string :=
  map (fun t => OpenAI.name (OpenAI.ChatCompletionTool.function t)) tools.

(** The descriptors whose [function.name] is [name]. *)
Definition tools_named (name : string) (tools : list ChatCompletionTool)
  : list ChatCompletionTool :=
  filter (fun t =>
            String.eqb (OpenAI.name (OpenAI.ChatCompletionTool.function t)) name)
         tools.


(** The record of one call of [h] on [args] and [context]. *)
Definition invocation (h : Handler Ctx) (args : JsValue) (context : Ctx)
  : Invocation Ctx :=
  {| invoked := h; with_args := args; with_context := context |}.

End HyperFunc.

(* ------------------------------------------------------------------ *)
(** * Object schemas and their JSON-Schema document *)
(* ------------------------------------------------------------------ *)

(** zod's object schemas by their shape, over any kind of schema node:
    [z.object(shape)] keeps the shape, [isOptional] is the node's method of
    that name, [parseDef] the converter's document for a node (none for a
    node it skips). *)
Module ZodModel.
Section Model.

Variable Node : Type.
Variable isOptional : Node -> bool.
Variable parseDef : Node -> option JsValue.
Variable validate : JsRecord Node -> JsValue -> Completion SafeParseReturnType.

Definition zod : Zod :=
  {| ZodFirstPartySchemaTypes := Node;
     AnyZodObject := JsRecord Node;
     z_object := fun shape => shape;
     safeParse := validate |}.

Definition properties_of (shape : JsRecord Node) : JsObject :=
  flat_map (fun kv => match parseDef (snd kv) with
                      | Some doc => [(fst kv, doc)]
                      | None => []
                      end) shape.

Definition required_of (shape : JsRecord Node) : list JsValue :=
  flat_map (fun kv => match parseDef (snd kv) with
                      | Some _ => if isOptional (snd kv) then []
                                  else [JString (fst kv)]
                      | None => []
                      end) shape.

(** Modelled from the spec: the conversion of an object schema by the
    zod-to-json-schema package, which is not among the sources.  The
    document has [type] and [properties] always, and [required] only when
    it would list a name: with no required argument the field is left out,
    as the specification states for the degenerate schema. *)
Definition zodToJsonSchema_object (shape : JsRecord Node) : JsObject :=
  [ ("type"%string, JString "object");
    ("properties"%string, JObject (properties_of shape)) ]
  ++ match required_of shape with
     | [] => []
     | names => [ ("required"%string, JArray names) ]
     end
  ++ [ ("additionalProperties"%string, JBool false);
       ("$schema"%string, JString "http://json-schema.org/draft-07/schema#") ].

Definition converter : ZodToJsonSchema zod :=
  @Build_ZodToJsonSchema zod zodToJsonSchema_object.

End Model.
End ZodModel.

(* ------------------------------------------------------------------ *)
(** * A worked registry *)
(* ------------------------------------------------------------------ *)

(** The registry of the specification's scenarios: [add_two] over two
    numbers, on a small instance of every import.  The theorems below are
    applied to it. *)
Module Scenario.

Inductive Node : Type :=
| ZNumber
| ZString
| ZOptional (inner : Node)
| ZDescribe (inner : Node) (text : string).

Fixpoint isOptional (n : Node) : bool :=
  match n with
  | ZOptional _ => true
  | ZDescribe inner _ => isOptional inner
  | _ => false
  end.

Fixpoint parseDef (n : Node) : option JsValue :=
  match n with
  | ZNumber => Some (JObject [("type"%string, JString "number")])
  | ZString => Some (JObject [("type"%string, JString "string")])
  | ZOptional inner => parseDef inner
  | ZDescribe inner text =>
      match parseDef inner with
      | Some (JObject props) =>
          Some (JObject (props ++ [("description"%string, JString text)]))
      | other => other
      end
  end.

Fixpoint accepts (n : Node) (v : JsValue) : bool :=
  match n with
  | ZNumber => match v with JNumber _ => true | _ => false end
  | ZString => match v with JString _ => true | _ => false end
  | ZOptional inner =>
      match v with JUndefined => true | _ => accepts inner v end
  | ZDescribe inner _ => accepts inner v
  end.

(** Validation of an object against a shape: every named argument is
    accepted; the data keeps the named arguments only. *)
Definition validate (shape : JsRecord Node) (v : JsValue)
  : Completion SafeParseReturnType :=
  match v with
  | JObject props =>
      if forallb (fun kv => accepts (snd kv) (Obj.get (fst kv) props)) shape
      then Normal (SafeParseSuccess
                     (JObject (flat_map
                                 (fun kv => match Obj.lookup (fst kv) props with
                                            | Some x => [(fst kv, x)]
                                            | None => []
                                            end) shape)))
      else Normal (SafeParseError (JString "invalid_type"))
  | _ => Normal (SafeParseError (JString "invalid_type"))
  end.

#[export] Instance zod : Zod := ZodModel.zod validate.
#[export] Instance converter : ZodToJsonSchema zod :=
  ZodModel.converter isOptional parseDef validate.

Definition quote : string := String "034"%char EmptyString.

(** The text [{"a":2,"b":3}] *)
Definition good_arguments : string :=
  ("{" ++ quote ++ "a" ++ quote ++ ":2," ++ quote ++ "b" ++ quote ++ ":3}")%string.

(** The text [{"a":"x","b":3}] *)
Definition bad_arguments : string :=
  ("{" ++ quote ++ "a" ++ quote ++ ":" ++ quote ++ "x" ++ quote ++ ","
       ++ quote ++ "b" ++ quote ++ ":3}")%string.

(** The text [{"a":2,] *)
Definition cut_arguments : string :=
  ("{" ++ quote ++ "a" ++ quote ++ ":2,")%string.

(** A host whose world counts the handler runs, and whose parser knows
    the argument texts above; every other text is a syntax error. *)
#[export] Instance runtime : JsRuntime :=
  {| World := nat;
     JSON_parse := fun text =>
       if String.eqb text good_arguments
       then Normal (JObject [("a"%string, JNumber 2); ("b"%string, JNumber 3)])
       else if String.eqb text bad_arguments
       then Normal (JObject [("a"%string, JString "x"); ("b"%string, JNumber 3)])
       else Throw (SyntaxError "Unexpected end of JSON input") |}.

Fixpoint drop_indent (at_line_start : bool) (s : string) : string :=
  match s with
  | EmptyString => EmptyString
  | String c rest =>
      if Ascii.eqb c "010"%char then String c (drop_indent true rest)
      else if at_line_start && Ascii.eqb c " "%char then drop_indent true rest
      else String c (drop_indent false rest)
  end.

(** An [ind] that drops the first line break and the spaces that open
    each line. *)
#[export] Instance indoc : Indoc :=
  {| ind := fun s =>
       match s with
       | String c rest =>
           if Ascii.eqb c "010"%char then drop_indent true rest
           else drop_indent true s
       | EmptyString => EmptyString
       end |}.

(** The caller's context: a session label. *)
Definition Session : Type := string.

Definition sum_of (args : JsValue) : Completion JsValue :=
  match args with
  | JObject props =>
      match Obj.get "a" props, Obj.get "b" props with
      | JNumber a, JNumber b => Normal (JNumber (a + b))
      | _, _ => Throw (Error "not a number")
      end
  | _ => Throw (Error "not an object")
  end.

(** [handler: ({a, b}) => a + b] *)
Definition add_handler : Handler Session :=
  fun args _ w =>
    match sum_of args with
    | Normal v => (Normal (Value v), S w)
    | Throw e => (Throw e, S w)
    end.

(** [handler: async ({a, b}) => a + b] *)
Definition add_handler_async : Handler Session :=
  fun args _ w =>
    (Normal (Pending (fun w' =>
       match sum_of args with
       | Normal v => (Fulfilled v, w')
       | Throw e => (Rejected e, w')
       end)), S w).

(** [handler: () => { throw new Error("out of service") }] *)
Definition failing_handler : Handler Session :=
  fun _ _ w => (Throw (Error "out of service"), S w).

(** [handler: async () => { throw new Error("out of service") }] *)
Definition failing_handler_async : Handler Session :=
  fun _ _ w =>
    (Normal (Pending (fun w' => (Rejected (Error "out of service"), w'))), S w).

Definition two_numbers : JsRecord Node :=
  [ ("a"%string, ZDescribe ZNumber "First number");
    ("b"%string, ZDescribe ZNumber "Second number") ].

Definition add_two : HyperFunctionData Session :=
  hyper "Add two numbers" two_numbers add_handler.

Definition add_two_async : HyperFunctionData Session :=
  hyper "Add two numbers, later" two_numbers add_handler_async.

Definition broken : HyperFunctionData Session :=
  hyper "Always fails" two_numbers failing_handler.

Definition broken_async : HyperFunctionData Session :=
  hyper "Always fails, later" two_numbers failing_handler_async.

(** Every argument optional. *)
Definition greet : HyperFunctionData Session :=
  hyper "Greet somebody"
        [ ("whom"%string, ZDescribe (ZOptional ZString) "Name to greet") ]
        (fun _ _ w => (Normal (Value (JString "hello")), S w)).

Definition store : HyperStore Session :=
  hyperStore [ ("add_two"%string, add_two); ("greet"%string, greet) ].

Definition request (name arguments : string) : ChatCompletionMessageToolCall :=
  {| OpenAI.ChatCompletionMessageToolCall.id := "call_0";
     OpenAI.ChatCompletionMessageToolCall.function :=
       {| OpenAI.ChatCompletionMessageToolCall.name := name;
          OpenAI.ChatCompletionMessageToolCall.arguments := arguments |};
     OpenAI.ChatCompletionMessageToolCall.type := "function" |}.

Definition start : Machine Session := {| world := 0; calls := [] |}.

End Scenario.

(* ------------------------------------------------------------------ *)
(** * Facts about maps *)
(* ------------------------------------------------------------------ *)

Section JsMapFacts.

Variable V : Type.
Implicit Types (m : JsMap.t V) (k : string) (v : V).

Lemma map_get_set_same m k v : JsMap.get k (JsMap.set k v m) = Some v.
Proof.
  induction m as [| [k' v'] rest IH]; simpl.
  - now rewrite String.eqb_refl.
  - destruct (String.eqb k' k) eqn:E; simpl.
    + now rewrite String.eqb_refl.
    + now rewrite E.
Qed.

Lemma map_get_set_other m k k' v :
  k <> k' -> JsMap.get k' (JsMap.set k v m) = JsMap.get k' m.
Proof.
  intros Hne. induction m as [| [k0 v0] rest IH]; simpl.
  - apply String.eqb_neq in Hne. now rewrite Hne.
  - destruct (String.eqb k0 k) eqn:E; simpl.
    + apply String.eqb_eq in E. subst k0.
      apply String.eqb_neq in Hne. now rewrite Hne.
    + now rewrite IH.
Qed.

Lemma map_set_set m k v1 v2 :
  JsMap.set k v2 (JsMap.set k v1 m) = JsMap.set k v2 m.
Proof.
  induction m as [| [k' v'] rest IH]; simpl.
  - now rewrite String.eqb_refl.
  - destruct (String.eqb k' k) eqn:E; simpl.
    + now rewrite String.eqb_refl.
    + rewrite E. now rewrite IH.
Qed.

Lemma map_set_present m k v :
  In k (JsMap.keys m) -> JsMap.keys (JsMap.set k v m) = JsMap.keys m.
Proof.
  induction m as [| [k' v'] rest IH]; simpl; intros Hin.
  - contradiction.
  - destruct (String.eqb k' k) eqn:E; simpl.
    + apply String.eqb_eq in E. now subst.
    + f_equal. apply IH. destruct Hin as [Heq | Hin]; [| exact Hin].
      apply String.eqb_neq in E. congruence.
Qed.

Lemma map_set_absent m k v :
  ~ In k (JsMap.keys m) -> JsMap.set k v m = m ++ [(k, v)].
Proof.
  induction m as [| [k' v'] rest IH]; simpl; intros Hnin.
  - reflexivity.
  - destruct (String.eqb k' k) eqn:E.
    + apply String.eqb_eq in E. subst. exfalso. apply Hnin. now left.
    + f_equal. apply IH. intros Hin. apply Hnin. now right.
Qed.

Lemma map_keys_set m k v :
  JsMap.keys (JsMap.set k v m)
  = if existsb (String.eqb k) (JsMap.keys m)
    then JsMap.keys m else JsMap.keys m ++ [k].
Proof.
  destruct (existsb (String.eqb k) (JsMap.keys m)) eqn:E.
  - apply map_set_present. apply existsb_exists in E.
    destruct E as [x [Hin Hx]]. apply String.eqb_eq in Hx. now subst.
  - rewrite map_set_absent.
    + unfold JsMap.keys. now rewrite map_app.
    + intros Hin. assert (existsb (String.eqb k) (JsMap.keys m) = true) as H.
      { apply existsb_exists. exists k. split; [exact Hin | apply String.eqb_refl]. }
      congruence.
Qed.

Lemma map_set_keeps_keys_distinct m k v :
  NoDup (JsMap.keys m) -> NoDup (JsMap.keys (JsMap.set k v m)).
Proof.
  intros Hnd. rewrite map_keys_set.
  destruct (existsb (String.eqb k) (JsMap.keys m)) eqn:E; [exact Hnd |].
  apply NoDup_app; [exact Hnd | repeat constructor; intros [] |].
  intros x Hx [Hk | []]. subst x.
  assert (existsb (String.eqb k) (JsMap.keys m) = true) as H.
  { apply existsb_exists. exists k. split; [exact Hx | apply String.eqb_refl]. }
  congruence.
Qed.

Lemma map_fold_set_keys_distinct (es : list (string * V)) m :
  NoDup (JsMap.keys m) ->
  NoDup (JsMap.keys (fold_left (fun acc e => JsMap.set (fst e) (snd e) acc) es m)).
Proof.
  revert m. induction es as [| e es IH]; simpl; intros m Hnd.
  - exact Hnd.
  - apply IH. now apply map_set_keeps_keys_distinct.
Qed.

Lemma map_of_entries_keys_distinct (es : list (string * V)) :
  NoDup (JsMap.keys (JsMap.of_entries es)).
Proof.
  unfold JsMap.of_entries. apply map_fold_set_keys_distinct. constructor.
Qed.

Lemma map_fold_set_fresh (es : list (string * V)) m :
  NoDup (JsMap.keys m ++ map fst es) ->
  fold_left (fun acc e => JsMap.set (fst e) (snd e) acc) es m = m ++ es.
Proof.
  revert m. induction es as [| [k v] es IH]; simpl; intros m Hnd.
  - now rewrite app_nil_r.
  - assert (~ In k (JsMap.keys m)) as Hk.
    { intros Hin. apply NoDup_remove_2 in Hnd. apply Hnd.
      apply in_or_app. now left. }
    rewrite map_set_absent by exact Hk. rewrite IH.
    + now rewrite <- app_assoc.
    + unfold JsMap.keys in *. rewrite map_app. simpl.
      rewrite <- app_assoc. exact Hnd.
Qed.

Lemma map_of_entries_distinct (es : list (string * V)) :
  NoDup (map fst es) -> JsMap.of_entries es = es.
Proof.
  intros Hnd. unfold JsMap.of_entries.
  now rewrite map_fold_set_fresh.
Qed.

Lemma map_get_none m k : JsMap.get k m = None -> ~ In k (JsMap.keys m).
Proof.
  induction m as [| [k' v'] rest IH]; simpl; intros Hg.
  - intros [].
  - destruct (String.eqb k' k) eqn:E; [discriminate |].
    intros [Heq | Hin]; [| now apply IH].
    apply String.eqb_neq in E. congruence.
Qed.

Lemma map_get_some m k v : JsMap.get k m = Some v -> In (k, v) m.
Proof.
  induction m as [| [k' v'] rest IH]; simpl; intros Hg.
  - discriminate.
  - destruct (String.eqb k' k) eqn:E.
    + apply String.eqb_eq in E. left. congruence.
    + right. now apply IH.
Qed.

Lemma map_in_get m k v :
  NoDup (JsMap.keys m) -> In (k, v) m -> JsMap.get k m = Some v.
Proof.
  induction m as [| [k' v'] rest IH]; simpl; intros Hnd Hin.
  - contradiction.
  - inversion Hnd as [| ? ? Hnotin Hrest]; subst.
    destruct Hin as [Heq | Hin].
    + inversion Heq; subst. now rewrite String.eqb_refl.
    + destruct (String.eqb k' k) eqn:E.
      * apply String.eqb_eq in E. subst k'. exfalso. apply Hnotin.
        change k with (fst (k, v)). now apply in_map.
      * now apply IH.
Qed.

Lemma filter_none (A : Type) (f : A -> bool) (l : list A) :
  (forall x, In x l -> f x = false) -> filter f l = [].
Proof.
  induction l as [| a l IH]; simpl; intros Hall.
  - reflexivity.
  - rewrite (Hall a (or_introl eq_refl)). apply IH.
    intros x Hx. apply Hall. now right.
Qed.

(** With distinct keys, the entries under a key are the one [get] finds. *)
Lemma map_entries_under_key m k v :
  NoDup (JsMap.keys m) -> JsMap.get k m = Some v ->
  filter (fun e => String.eqb (fst e) k) m = [(k, v)].
Proof.
  induction m as [| [k' v'] rest IH]; simpl; intros Hnd Hg.
  - discriminate.
  - inversion Hnd as [| ? ? Hnotin Hrest]; subst.
    destruct (String.eqb k' k) eqn:E.
    + apply String.eqb_eq in E. subst k'. inversion Hg; subst.
      f_equal. apply filter_none.
      intros [k1 v1] Hin1. simpl. apply String.eqb_neq.
      intros ->. apply Hnotin. change k with (fst (k, v1)). now apply in_map.
    + now apply IH.
Qed.

End JsMapFacts.

(* ------------------------------------------------------------------ *)
(** * Facts about strings *)
(* ------------------------------------------------------------------ *)

Lemma strips_keeps_prefix (w post t : string) :
  whitespace_free w = true ->
  strips_whitespace (w ++ post) t ->
  exists post', t = (w ++ post')%string.
Proof.
  revert t. induction w as [| c w IH]; simpl; intros t Hfree Hs.
  - now exists t.
  - apply andb_prop in Hfree. destruct Hfree as [Hc Hw].
    inversion Hs as [| c' s' t' Hrest | c' s' t' Hws Hrest]; subst.
    + destruct (IH _ Hw Hrest) as [post' ->]. now exists post'.
    + rewrite Hws in Hc. discriminate.
Qed.

(** Removing whitespace keeps every word that has none. *)
Lemma strips_keeps_word (w s t : string) :
  whitespace_free w = true ->
  strips_whitespace s t -> contains w s -> contains w t.
Proof.
  intros Hfree Hs [pre [post ->]]. revert t Hs.
  induction pre as [| c pre IH]; simpl; intros t Hs.
  - destruct (strips_keeps_prefix _ _ Hfree Hs) as [post' ->].
    now exists EmptyString, post'.
  - inversion Hs as [| c' s' t' Hrest | c' s' t' Hws Hrest]; subst.
    + destruct (IH _ Hrest) as [pre' [post' ->]].
      now exists (String c pre'), post'.
    + now apply IH.
Qed.

Lemma drop_indent_strips (b : bool) (s : string) :
  strips_whitespace s (Scenario.drop_indent b s).
Proof.
  revert b. induction s as [| c s IH]; simpl; intros b.
  - constructor.
  - destruct (Ascii.eqb c "010") eqn:Enl.
    + now constructor.
    + destruct (b && Ascii.eqb c " ")%bool eqn:Esp.
      * apply strips_drop; [| apply IH].
        apply andb_prop in Esp. destruct Esp as [_ Esp].
        apply Ascii.eqb_eq in Esp. now subst c.
      * now constructor.
Qed.

Lemma scenario_ind_strips (s : string) :
  strips_whitespace s (@ind Scenario.indoc s).
Proof.
  destruct s as [| c s]; [constructor |].
  unfold ind, Scenario.indoc.
  destruct (Ascii.eqb c "010") eqn:Enl.
  - apply strips_drop; [| apply drop_indent_strips].
    apply Ascii.eqb_eq in Enl. now subst c.
  - apply drop_indent_strips.
Qed.

(* ------------------------------------------------------------------ *)
(** * The dispatcher *)
(* ------------------------------------------------------------------ *)

Section CallToolFacts.

Context {R : JsRuntime} {Z : Zod} {I : Indoc}.
Variable Ctx : Type.
Implicit Types (this : HyperStore Ctx) (data : ChatCompletionMessageToolCall).
Implicit Types (context : Ctx) (m : Machine Ctx) (hf : HyperFunctionData Ctx).

(** [callTool] once the first three statements went through: what is left
    is the call of the handler and the await. *)
Lemma callTool_reaches_handler this data context m hf parsed validated :
  JsMap.get (requested_name data) (functions this) = Some hf ->
  JSON_parse (requested_arguments data) = Normal parsed ->
  safeParse (_schema hf) parsed = Normal (SafeParseSuccess validated) ->
  callTool this data context m
  = async (bind (call (_handler hf) validated context)
                (fun response => match response with
                                 | Pending p => await p
                                 | Value v => ret v
                                 end)) m.
Proof.
  intros Hget Hparse Hvalid.
  unfold callTool, async, callTool_body, bind, eval, assert.
  now rewrite Hget, Hparse, Hvalid.
Qed.

(** C1. A request that names a registered function, whose arguments
    parse as JSON and pass the definition's schema, makes [callTool] call
    the definition's handler once, on the validated arguments and the
    caller's context: the call is the one record added to the calls.  The
    returned promise is fulfilled with the value the handler returns, or,
    when the handler returns a pending computation, with the value that
    computation is fulfilled with. *)
Theorem callTool_valid_request this data context m hf parsed validated :
  JsMap.get (requested_name data) (functions this) = Some hf ->
  JSON_parse (requested_arguments data) = Normal parsed ->
  safeParse (_schema hf) parsed = Normal (SafeParseSuccess validated) ->
  calls (snd (callTool this data context m))
  = calls m ++ [invocation (_handler hf) validated context]
  /\ (forall v w,
        _handler hf validated context (world m) = (Normal (Value v), w) ->
        fst (callTool this data context m) = Fulfilled v
        /\ world (snd (callTool this data context m)) = w)
  /\ (forall p w v w',
        _handler hf validated context (world m) = (Normal (Pending p), w) ->
        p w = (Fulfilled v, w') ->
        fst (callTool this data context m) = Fulfilled v
        /\ world (snd (callTool this data context m)) = w').
Proof.
  intros Hget Hparse Hvalid.
  rewrite (callTool_reaches_handler this data context m Hget Hparse Hvalid).
  unfold async, bind, call, await, ret, invocation.
  destruct (_handler hf validated context (world m)) as [[[v | p] | e] w] eqn:Hh;
    simpl.
  - split; [reflexivity |]. split.
    + intros v0 w0 Heq. now inversion Heq.
    + intros p w0 v0 w' Heq. discriminate Heq.
  - destruct (p w) as [[v | e] w'] eqn:Hp; simpl.
    + split; [reflexivity |]. split.
      * intros v0 w0 Heq. discriminate Heq.
      * intros p0 w0 v0 w0' Heq Hp0. inversion Heq; subst.
        rewrite Hp in Hp0. now inversion Hp0.
    + split; [reflexivity |]. split.
      * intros v0 w0 Heq. discriminate Heq.
      * intros p0 w0 v0 w0' Heq Hp0. inversion Heq; subst.
        rewrite Hp in Hp0. discriminate Hp0.
  - split; [reflexivity |]. split.
    + intros v0 w0 Heq. discriminate Heq.
    + intros p w0 v0 w' Heq. discriminate Heq.
Qed.

(** C3. A request whose name is no key of the registry is rejected with
    the assertion's error, which is not the [Error] of a failed
    validation; no handler is called and the world is untouched. *)
Theorem callTool_unregistered_name this data context m :
  JsMap.get (requested_name data) (functions this) = None ->
  callTool this data context m = (Rejected AssertionError, m)
  /\ forall message,
       fst (callTool this data context m) <> Rejected (Error message).
Proof.
  intros Hget.
  assert (callTool this data context m = (Rejected AssertionError, m)) as Hrun.
  { unfold callTool, async, callTool_body, bind, eval, assert.
    now rewrite Hget. }
  split; [exact Hrun |].
  intros message. rewrite Hrun. simpl. discriminate.
Qed.

(** C7. [callTool] hands on, as the rejection of its promise, the very
    error it met: the one [JSON.parse] throws (no handler called), the one
    [safeParse] throws, the one the handler throws, and the one the
    handler's promise is rejected with (the handler called once in these
    two). *)
Theorem callTool_propagates_errors this data context m hf e :
  JsMap.get (requested_name data) (functions this) = Some hf ->
  (JSON_parse (requested_arguments data) = Throw e ->
   callTool this data context m = (Rejected e, m))
  /\ (forall parsed,
        JSON_parse (requested_arguments data) = Normal parsed ->
        safeParse (_schema hf) parsed = Throw e ->
        callTool this data context m = (Rejected e, m))
  /\ (forall parsed validated w,
        JSON_parse (requested_arguments data) = Normal parsed ->
        safeParse (_schema hf) parsed = Normal (SafeParseSuccess validated) ->
        _handler hf validated context (world m) = (Throw e, w) ->
        callTool this data context m
        = (Rejected e,
           {| world := w;
              calls := calls m ++ [invocation (_handler hf) validated context] |}))
  /\ (forall parsed validated p w w',
        JSON_parse (requested_arguments data) = Normal parsed ->
        safeParse (_schema hf) parsed = Normal (SafeParseSuccess validated) ->
        _handler hf validated context (world m) = (Normal (Pending p), w) ->
        p w = (Rejected e, w') ->
        callTool this data context m
        = (Rejected e,
           {| world := w';
              calls := calls m ++ [invocation (_handler hf) validated context] |})).
Proof.
  intros Hget. repeat split.
  - intros Hparse.
    unfold callTool, async, callTool_body, bind, eval, assert.
    now rewrite Hget, Hparse.
  - intros parsed Hparse Hvalid.
    unfold callTool, async, callTool_body, bind, eval, assert.
    now rewrite Hget, Hparse, Hvalid.
  - intros parsed validated w Hparse Hvalid Hh.
    rewrite (callTool_reaches_handler this data context m Hget Hparse Hvalid).
    unfold async, bind, call. now rewrite Hh.
  - intros parsed validated p w w' Hparse Hvalid Hh Hp.
    rewrite (callTool_reaches_handler this data context m Hget Hparse Hvalid).
    unfold async, bind, call, await. rewrite Hh. simpl. now rewrite Hp.
Qed.


End CallToolFacts.

(* ------------------------------------------------------------------ *)
(** * The translator and the registry *)
(* ------------------------------------------------------------------ *)

Section RegistryFacts.

Context {R : JsRuntime} {Z : Zod} {J : ZodToJsonSchema Z}.
Variable Ctx : Type.
Implicit Types (this : HyperStore Ctx) (hf : HyperFunctionData Ctx).
Implicit Types (name : string).

Lemma has_lookup (V : Type) (k : string) (o : JsRecord V) :
  Obj.has k o = match Obj.lookup k o with Some _ => true | None => false end.
Proof. reflexivity. Qed.

(** C4. The descriptor's [parameters] are the fields [type], [properties]
    and [required] of the converted schema, with the values they have
    there, when the converted schema has all three; they are the empty
    object when it lacks one of them. *)
Theorem hyperFunctionToTool_parameters name hf :
  (forall t p r,
     Obj.lookup "type" (zodToJsonSchema (_schema hf)) = Some t ->
     Obj.lookup "properties" (zodToJsonSchema (_schema hf)) = Some p ->
     Obj.lookup "required" (zodToJsonSchema (_schema hf)) = Some r ->
     OpenAI.parameters
       (OpenAI.ChatCompletionTool.function (hyperFunctionToTool name hf))
     = [ ("type"%string, t); ("properties"%string, p); ("required"%string, r) ])
  /\ (Obj.lookup "type" (zodToJsonSchema (_schema hf)) = None
      \/ Obj.lookup "properties" (zodToJsonSchema (_schema hf)) = None
      \/ Obj.lookup "required" (zodToJsonSchema (_schema hf)) = None ->
      OpenAI.parameters
        (OpenAI.ChatCompletionTool.function (hyperFunctionToTool name hf))
      = []).
Proof.
  unfold hyperFunctionToTool, pick_parameters, Obj.get. simpl.
  rewrite !has_lookup. split.
  - intros t p r Ht Hp Hr. now rewrite Ht, Hp, Hr.
  - intros [H | [H | H]]; rewrite H.
    + reflexivity.
    + now rewrite andb_false_r.
    + now rewrite andb_false_r.
Qed.

Lemma asTools_names this :
  tool_names (asTools this) = JsMap.keys (functions this).
Proof.
  unfold tool_names, asTools, JsMap.entries, JsMap.keys.
  rewrite map_map. apply map_ext. intros [k v]. reflexivity.
Qed.

Lemma asTools_named this name :
  tools_named name (asTools this)
  = map (fun kv => hyperFunctionToTool (fst kv) (snd kv))
        (filter (fun e => String.eqb (fst e) name)
                (JsMap.entries (functions this))).
Proof.
  unfold tools_named, asTools. rewrite filter_map_swap. reflexivity.
Qed.

(** Every store made by [hyperStore] and [set] has pairwise distinct
    names. *)
Lemma store_names_distinct (fns : JsRecord (HyperFunctionData Ctx))
    (ops : list (string * HyperFunctionData Ctx)) :
  NoDup (JsMap.keys (functions (store_after fns ops))).
Proof.
  unfold store_after.
  assert (NoDup (JsMap.keys (functions (hyperStore fns)))) as Hinit
    by apply map_of_entries_keys_distinct.
  revert Hinit. generalize (hyperStore fns) as s.
  induction ops as [| [k hf] ops IH]; simpl; intros s Hs.
  - exact Hs.
  - apply IH. simpl. now apply map_set_keeps_keys_distinct.
Qed.

Lemma tools_named_registered this name hf :
  NoDup (JsMap.keys (functions this)) ->
  JsMap.get name (functions this) = Some hf ->
  tools_named name (asTools this) = [hyperFunctionToTool name hf].
Proof.
  intros Hnd Hget. rewrite asTools_named. unfold JsMap.entries.
  now rewrite map_entries_under_key with (v := hf) by assumption.
Qed.

(** C5. For every store made by [hyperStore] and [set]: [asTools] has as
    many descriptors as the registry has entries; for a registered name it
    holds one descriptor under that name, the translation of the name's
    definition, and for any other name none; and every descriptor is
    [{function: {name, description, parameters}, type: "function"}] for a
    registered name and the description of its definition. *)
Theorem asTools_one_descriptor_per_entry
    (fns : JsRecord (HyperFunctionData Ctx))
    (ops : list (string * HyperFunctionData Ctx)) :
  length (asTools (store_after fns ops))
  = length (JsMap.entries (functions (store_after fns ops)))
  /\ (forall name hf,
        JsMap.get name (functions (store_after fns ops)) = Some hf ->
        tools_named name (asTools (store_after fns ops))
        = [hyperFunctionToTool name hf])
  /\ (forall name,
        JsMap.get name (functions (store_after fns ops)) = None ->
        tools_named name (asTools (store_after fns ops)) = [])
  /\ (forall tool,
        In tool (asTools (store_after fns ops)) ->
        exists name hf,
          JsMap.get name (functions (store_after fns ops)) = Some hf
          /\ tool
             = {| OpenAI.ChatCompletionTool.function :=
                    {| OpenAI.name := name;
                       OpenAI.description := _description hf;
                       OpenAI.parameters :=
                         OpenAI.parameters
                           (OpenAI.ChatCompletionTool.function
                              (hyperFunctionToTool name hf)) |};
                  OpenAI.ChatCompletionTool.type := "function" |}).
Proof.
  pose proof (store_names_distinct fns ops) as Hnd.
  set (this := store_after fns ops) in *.
  split; [| split; [| split]].
  - unfold asTools. apply length_map.
  - intros name hf Hget. now apply tools_named_registered.
  - intros name Hget. rewrite asTools_named. unfold JsMap.entries.
    rewrite filter_none; [reflexivity |].
    intros [k v] Hin. simpl. apply String.eqb_neq. intros ->.
    eapply map_get_none; [exact Hget |].
    change name with (fst (name, v)). now apply in_map.
  - intros tool Hin. unfold asTools in Hin. apply in_map_iff in Hin.
    destruct Hin as [[k v] [Htool Hin]]. simpl in Htool.
    exists k, v. split.
    + now apply map_in_get.
    + now subst tool.
Qed.

(** C6. On every store made by [hyperStore] and [set], [set(name, d1)]
    then [set(name, d2)] leaves what [set(name, d2)] alone leaves: the
    name maps to [d2], the registry has one entry under the name, the one
    for [d2], and [asTools] has one descriptor under the name, the
    translation of [d2]. *)
Theorem set_twice_keeps_the_second
    (fns : JsRecord (HyperFunctionData Ctx))
    (ops : list (string * HyperFunctionData Ctx)) name (d1 d2 : HyperFunctionData Ctx) :
  set (set (store_after fns ops) name d1) name d2
  = set (store_after fns ops) name d2
  /\ JsMap.get name
       (functions (set (set (store_after fns ops) name d1) name d2))
     = Some d2
  /\ filter (fun e => String.eqb (fst e) name)
       (JsMap.entries
          (functions (set (set (store_after fns ops) name d1) name d2)))
     = [(name, d2)]
  /\ tools_named name
       (asTools (set (set (store_after fns ops) name d1) name d2))
     = [hyperFunctionToTool name d2].
Proof.
  pose proof (store_names_distinct fns ops) as Hnd.
  set (this := store_after fns ops) in *.
  assert (set (set this name d1) name d2 = set this name d2) as Heq.
  { unfold set. simpl. now rewrite map_set_set. }
  rewrite Heq.
  assert (NoDup (JsMap.keys (functions (set this name d2)))) as Hnd'.
  { simpl. now apply map_set_keeps_keys_distinct. }
  assert (JsMap.get name (functions (set this name d2)) = Some d2) as Hget.
  { simpl. apply map_get_set_same. }
  split; [reflexivity |]. split; [exact Hget |]. split.
  - unfold JsMap.entries. now apply map_entries_under_key.
  - now apply tools_named_registered.
Qed.

(** C10. [asTools] lists the descriptors in the registry's insertion
    order: the names of the initial object in its key order, a name new to
    the registry after all those present, and a name already present at
    the place it has, its neighbours unmoved. *)
Theorem asTools_insertion_order :
  (forall fns : JsRecord (HyperFunctionData Ctx),
     NoDup (Obj.keys fns) ->
     tool_names (asTools (hyperStore fns)) = Obj.keys fns)
  /\ (forall this name hf,
        JsMap.get name (functions this) = None ->
        tool_names (asTools (set this name hf))
        = tool_names (asTools this) ++ [name])
  /\ (forall this name hf old,
        JsMap.get name (functions this) = Some old ->
        tool_names (asTools (set this name hf)) = tool_names (asTools this)).
Proof.
  split; [| split].
  - intros fns Hnd. rewrite asTools_names. simpl.
    unfold Obj.entries. now rewrite map_of_entries_distinct.
  - intros this name hf Hget. rewrite !asTools_names. simpl.
    rewrite map_set_absent by now apply map_get_none.
    unfold JsMap.keys. now rewrite map_app.
  - intros this name hf old Hget. rewrite !asTools_names. simpl.
    apply map_set_present. apply map_get_some in Hget.
    change name with (fst (name, old)). now apply in_map.
Qed.

End RegistryFacts.

(* ------------------------------------------------------------------ *)
(** * Definitions made by the builder *)
(* ------------------------------------------------------------------ *)

Section BuilderFacts.

Context {R : JsRuntime}.
Variable Node : Type.
Variable isOptional : Node -> bool.
Variable parseDef : Node -> option JsValue.
Variable validate : JsRecord Node -> JsValue -> Completion SafeParseReturnType.
Variable Ctx : Type.

Local Abbreviation Zd := (ZodModel.zod validate).
Local Abbreviation Jd := (ZodModel.converter isOptional parseDef validate).

Lemma required_of_optional_shape (args : JsRecord Node) :
  (forall k node, In (k, node) args -> isOptional node = true) ->
  ZodModel.required_of isOptional parseDef args = [].
Proof.
  induction args as [| [k node] args IH]; simpl; intros Hopt.
  - reflexivity.
  - rewrite (Hopt k node (or_introl eq_refl)).
    rewrite IH by (intros k' node' Hin; apply (Hopt k' node'); now right).
    now destruct (parseDef node).
Qed.

(** C9. A definition built by [hyper] from arguments that are all
    optional (none at all included) converts to a document with [type]
    and [properties], the arguments' documents among them, and without
    [required]; its descriptor's [parameters] are the empty object. *)
Theorem hyper_without_required_argument
    (description : string) (args : JsRecord Node) (handler : Handler Ctx)
    (name : string) :
  (forall k node, In (k, node) args -> isOptional node = true) ->
  Obj.has "required"
    (@zodToJsonSchema Zd Jd
       (_schema (@hyper R Zd Ctx description args handler))) = false
  /\ Obj.lookup "type"
       (@zodToJsonSchema Zd Jd
          (_schema (@hyper R Zd Ctx description args handler)))
     = Some (JString "object")
  /\ Obj.lookup "properties"
       (@zodToJsonSchema Zd Jd
          (_schema (@hyper R Zd Ctx description args handler)))
     = Some (JObject (ZodModel.properties_of parseDef args))
  /\ OpenAI.parameters
       (OpenAI.ChatCompletionTool.function
          (@hyperFunctionToTool R Zd Jd Ctx name
             (@hyper R Zd Ctx description args handler)))
     = [].
Proof.
  intros Hopt.
  unfold hyperFunctionToTool, hyper, Obj.has. simpl.
  unfold ZodModel.zodToJsonSchema_object.
  rewrite (required_of_optional_shape args Hopt).
  simpl. repeat split; reflexivity.
Qed.

End BuilderFacts.

(* ------------------------------------------------------------------ *)
(** * The theorems on the worked registry *)
(* ------------------------------------------------------------------ *)

Module ScenarioFacts.
Import Scenario.

Local Open Scope string_scope.

(** [add_two] called on [{"a":2,"b":3}] gives 5 after one call of its
    handler, and so does its asynchronous twin. *)
Lemma callTool_valid_request_witness :
  callTool store (request "add_two" good_arguments) "session-1" start
  = (Fulfilled (JNumber 5),
     {| world := 1;
        calls := [invocation add_handler
                    (JObject [("a", JNumber 2); ("b", JNumber 3)])
                    "session-1"] |})
  /\ fst (callTool (set store "add_two" add_two_async)
            (request "add_two" good_arguments) "session-1" start)
     = Fulfilled (JNumber 5).
Proof.
  split.
  - destruct (@callTool_valid_request runtime zod indoc Session
                store (request "add_two" good_arguments) "session-1" start
                add_two _ _ eq_refl eq_refl eq_refl)
      as [Hcalls [Hsync _]].
    destruct (Hsync (JNumber 5) 1 eq_refl) as [Hres Hworld].
    destruct (callTool store (request "add_two" good_arguments)
                "session-1" start) as [res [w cs]].
    simpl in *. now subst.
  - destruct (@callTool_valid_request runtime zod indoc Session
                (set store "add_two" add_two_async)
                (request "add_two" good_arguments) "session-1" start
                add_two_async _ _ eq_refl eq_refl eq_refl)
      as [_ [_ Hasync]].
    exact (proj1 (Hasync _ 1 (JNumber 5) 1 eq_refl eq_refl)).
Defined.

(** A call of [nonexistent] fails the assertion. *)
Lemma callTool_unregistered_name_witness :
  callTool store (request "nonexistent" good_arguments) "session-1" start
  = (Rejected AssertionError, start).
Proof.
  exact (proj1 (@callTool_unregistered_name runtime zod indoc Session
                  store (request "nonexistent" good_arguments) "session-1"
                  start eq_refl)).
Defined.

(** A cut argument text gives the parser's error; a failing handler and
    a failing asynchronous handler give theirs. *)
Lemma callTool_propagates_errors_witness :
  fst (callTool store (request "add_two" cut_arguments) "session-1" start)
  = Rejected (SyntaxError "Unexpected end of JSON input")
  /\ fst (callTool (set store "add_two" broken)
            (request "add_two" good_arguments) "session-1" start)
     = Rejected (Error "out of service")
  /\ fst (callTool (set store "add_two" broken_async)
            (request "add_two" good_arguments) "session-1" start)
     = Rejected (Error "out of service").
Proof.
  split; [| split].
  - destruct (@callTool_propagates_errors runtime zod indoc Session
                store (request "add_two" cut_arguments) "session-1" start
                add_two (SyntaxError "Unexpected end of JSON input") eq_refl)
      as [Hparse _].
    now rewrite (Hparse eq_refl).
  - destruct (@callTool_propagates_errors runtime zod indoc Session
                (set store "add_two" broken)
                (request "add_two" good_arguments) "session-1" start
                broken (Error "out of service") eq_refl)
      as [_ [_ [Hthrow _]]].
    now rewrite (Hthrow _ _ 1 eq_refl eq_refl eq_refl).
  - destruct (@callTool_propagates_errors runtime zod indoc Session
                (set store "add_two" broken_async)
                (request "add_two" good_arguments) "session-1" start
                broken_async (Error "out of service") eq_refl)
      as [_ [_ [_ Hreject]]].
    now rewrite (Hreject _ _ _ 1 1 eq_refl eq_refl eq_refl eq_refl).
Defined.

(** [add_two] converts to a document with the three fields, [greet] to
    one without [required]. *)
Lemma hyperFunctionToTool_parameters_witness :
  OpenAI.parameters
    (OpenAI.ChatCompletionTool.function (hyperFunctionToTool "add_two" add_two))
  = [ ("type", JString "object");
      ("properties",
       JObject
         [ ("a", JObject [("type", JString "number");
                          ("description", JString "First number")]);
           ("b", JObject [("type", JString "number");
                          ("description", JString "Second number")]) ]);
      ("required", JArray [JString "a"; JString "b"]) ]
  /\ OpenAI.parameters
       (OpenAI.ChatCompletionTool.function (hyperFunctionToTool "greet" greet))
     = [].
Proof.
  split.
  - exact (proj1 (@hyperFunctionToTool_parameters runtime zod converter
                    Session "add_two" add_two) _ _ _ eq_refl eq_refl eq_refl).
  - exact (proj2 (@hyperFunctionToTool_parameters runtime zod converter
                    Session "greet" greet)
                 (or_intror (or_intror eq_refl))).
Defined.

(** The worked registry exports one descriptor for [add_two] and none for
    a name it does not hold. *)
Lemma asTools_one_descriptor_per_entry_witness :
  length (asTools store) = 2
  /\ tools_named "add_two" (asTools store)
     = [hyperFunctionToTool "add_two" add_two]
  /\ tools_named "nonexistent" (asTools store) = [].
Proof.
  destruct (@asTools_one_descriptor_per_entry runtime zod converter Session
              [("add_two", add_two); ("greet", greet)] [])
    as [Hlen [Hsome [Hnone _]]].
  split; [exact Hlen |]. split.
  - exact (Hsome "add_two" add_two eq_refl).
  - exact (Hnone "nonexistent" eq_refl).
Defined.

(** [greet], whose one argument is optional, exports no parameters. *)
Lemma hyper_without_required_argument_witness :
  OpenAI.parameters
    (OpenAI.ChatCompletionTool.function (hyperFunctionToTool "greet" greet))
  = []
  /\ Obj.lookup "properties" (zodToJsonSchema (_schema greet))
     = Some (JObject
               [ ("whom", JObject [("type", JString "string");
                                   ("description", JString "Name to greet")]) ]).
Proof.
  assert (forall k node,
            In (k, node) [("whom", ZDescribe (ZOptional ZString) "Name to greet")] ->
            isOptional node = true) as Hopt.
  { intros k node [Heq | []]. inversion Heq. reflexivity. }
  destruct (@hyper_without_required_argument runtime Node isOptional parseDef
              validate Session "Greet somebody"
              [("whom", ZDescribe (ZOptional ZString) "Name to greet")]
              (fun _ _ w => (Normal (Value (JString "hello")), S w))
              "greet" Hopt)
    as [_ [_ [Hprops Hparams]]].
  split; [exact Hparams | exact Hprops].
Defined.

Lemma scenario_names_distinct :
  NoDup (Obj.keys [("add_two", add_two); ("greet", greet)]).
Proof.
  simpl. constructor.
  - intros [Heq | []]. discriminate Heq.
  - constructor; [intros [] | constructor].
Qed.

(** The worked registry lists [add_two], then [greet]; a new name goes
    last, and [add_two] set again stays first. *)
Lemma asTools_insertion_order_witness :
  tool_names (asTools store) = ["add_two"; "greet"]
  /\ tool_names (asTools (set store "parse_date" add_two))
     = ["add_two"; "greet"; "parse_date"]
  /\ tool_names (asTools (set store "add_two" add_two_async))
     = ["add_two"; "greet"].
Proof.
  destruct (@asTools_insertion_order runtime zod converter Session)
    as [Hinit [Hnew Hold]].
  split; [| split].
  - exact (Hinit [("add_two", add_two); ("greet", greet)]
                 scenario_names_distinct).
  - exact (Hnew store "parse_date" add_two eq_refl).
  - exact (Hold store "add_two" add_two_async add_two eq_refl).
Defined.

End ScenarioFacts.

(* ------------------------------------------------------------------ *)
(** * How [set] and [callTool] compose *)
(* ------------------------------------------------------------------ *)

Section DispatchComposition.

Context {R : JsRuntime} {Z : Zod} {I : Indoc}.
Variable Ctx : Type.
Implicit Types (this other : HyperStore Ctx) (data : ChatCompletionMessageToolCall).
Implicit Types (context : Ctx) (m : Machine Ctx) (hf : HyperFunctionData Ctx).





(** X10. A request that names a registered function and whose parsed
    arguments the schema refuses is rejected with [new Error(ind(text))],
    where [text] is the template with the requested name in it, whatever
    the validation error says; no handler call is recorded.  The text
    holds the name; the message holds it too when [ind] removes nothing
    but whitespace and the name has no whitespace. *)
Theorem callTool_invalid_arguments_message this data context m hf parsed error :
  JsMap.get (requested_name data) (functions this) = Some hf ->
  JSON_parse (requested_arguments data) = Normal parsed ->
  safeParse (_schema hf) parsed = Normal (SafeParseError error) ->
  fst (callTool this data context m)
  = Rejected (Error (ind (bad_arguments_text (requested_name data))))
  /\ calls (snd (callTool this data context m)) = calls m
  /\ contains (requested_name data) (bad_arguments_text (requested_name data))
  /\ ((forall s, strips_whitespace s (ind s)) ->
      whitespace_free (requested_name data) = true ->
      contains (requested_name data)
               (ind (bad_arguments_text (requested_name data)))).
Proof.
  intros Hget Hparse Hvalid.
  assert (contains (requested_name data)
                   (bad_arguments_text (requested_name data))) as Hin.
  { unfold contains, bad_arguments_text.
    exists (nl ++ "        There was an issue with parsing the function arguments,"
               ++ nl ++ "        please rewrite it by calling the ")%string.
    exists " function with the correct parameters."%string.
    reflexivity. }
  assert (callTool this data context m
          = (Rejected (Error (ind (bad_arguments_text (requested_name data)))),
             m)) as Hrun.
  { unfold callTool, async, callTool_body, bind, eval, assert, throw.
    now rewrite Hget, Hparse, Hvalid. }
  rewrite Hrun. simpl. repeat split; try exact Hin.
  intros Hind Hfree.
  exact (strips_keeps_word Hfree (Hind _) Hin).
Qed.

End DispatchComposition.

(* ------------------------------------------------------------------ *)
(** * How [hyperStore], [set] and [asTools] compose *)
(* ------------------------------------------------------------------ *)

Section RegistryComposition.

Context {R : JsRuntime} {Z : Zod} {J : ZodToJsonSchema Z}.
Variable Ctx : Type.
Implicit Types (this : HyperStore Ctx) (hf : HyperFunctionData Ctx).
Implicit Types (name k : string).

Lemma filter_set_other (V : Type) (m : JsMap.t V) (k name : string) (v : V) :
  name <> k ->
  filter (fun e => String.eqb (fst e) name) (JsMap.set k v m)
  = filter (fun e => String.eqb (fst e) name) m.
Proof.
  intros Hne. assert (String.eqb k name = false) as Hk
    by (apply String.eqb_neq; congruence).
  induction m as [| [k' v'] rest IH]; simpl.
  - now rewrite Hk.
  - destruct (String.eqb k' k) eqn:E; simpl.
    + apply String.eqb_eq in E. subst k'. now rewrite Hk.
    + now rewrite IH.
Qed.

(** X3. [set] on one name leaves the descriptors [asTools] exports under
    every other name as they were. *)
Theorem set_keeps_other_descriptors this k hf name :
  name <> k ->
  tools_named name (asTools (set this k hf))
  = tools_named name (asTools this).
Proof.
  intros Hne. rewrite !asTools_named. simpl. unfold JsMap.entries.
  now rewrite filter_set_other.
Qed.

(** X4. [set] never drops a descriptor: on a name the registry holds the
    number of descriptors stays, on a new name it grows by one. *)
Theorem set_grows_by_at_most_one this k hf :
  (forall old, JsMap.get k (functions this) = Some old ->
     length (asTools (set this k hf)) = length (asTools this))
  /\ (JsMap.get k (functions this) = None ->
      length (asTools (set this k hf)) = S (length (asTools this))).
Proof.
  unfold asTools, JsMap.entries. rewrite !length_map. simpl. split.
  - intros old Hget.
    assert (JsMap.keys (JsMap.set k hf (functions this))
            = JsMap.keys (functions this)) as Hkeys.
    { apply map_set_present. apply map_get_some in Hget.
      change k with (fst (k, old)). now apply in_map. }
    apply (f_equal (@length string)) in Hkeys.
    unfold JsMap.keys in Hkeys. now rewrite !length_map in Hkeys.
  - intros Hget. rewrite map_set_absent by now apply map_get_none.
    rewrite length_app. simpl. lia.
Qed.

Lemma store_after_functions (fns : JsRecord (HyperFunctionData Ctx))
    (ops : list (string * HyperFunctionData Ctx)) :
  functions (store_after fns ops) = JsMap.of_entries (Obj.entries fns ++ ops).
Proof.
  unfold store_after, JsMap.of_entries. rewrite fold_left_app.
  change (fold_left (fun m e => JsMap.set (fst e) (snd e) m)
            (Obj.entries fns) JsMap.empty)
    with (functions (hyperStore fns)).
  generalize (hyperStore fns) as s.
  induction ops as [| [k hf] ops IH]; simpl; intros s.
  - reflexivity.
  - now rewrite IH.
Qed.

Lemma map_of_entries_get (V : Type) (es : list (string * V)) (name : string) :
  JsMap.get name (JsMap.of_entries es) = Obj.lookup name (rev es).
Proof.
  induction es as [| [k v] es IH] using rev_ind.
  - reflexivity.
  - unfold JsMap.of_entries. rewrite fold_left_app. simpl.
    rewrite rev_unit. simpl.
    destruct (String.eqb k name) eqn:E.
    + apply String.eqb_eq in E. subst k. apply map_get_set_same.
    + rewrite map_get_set_other by now apply String.eqb_neq.
      exact IH.
Qed.

(** X5. In the store made by [hyperStore] and any [set] calls, a name
    maps to the definition given for it last, by a [set] or else by the
    initial object, and to nothing when none was given. *)
Theorem registry_holds_latest_definition
    (fns : JsRecord (HyperFunctionData Ctx))
    (ops : list (string * HyperFunctionData Ctx)) name :
  JsMap.get name (functions (store_after fns ops))
  = Obj.lookup name (rev (Obj.entries fns ++ ops)).
Proof.
  rewrite store_after_functions. apply map_of_entries_get.
Qed.

(** X6. The store made from an object exports the translation of each of
    its definitions, under its name, in the object's key order. *)
Theorem hyperStore_exports_every_definition
    (fns : JsRecord (HyperFunctionData Ctx)) :
  NoDup (Obj.keys fns) ->
  asTools (hyperStore fns)
  = map (fun kv => hyperFunctionToTool (fst kv) (snd kv)) fns.
Proof.
  intros Hnd. unfold asTools, hyperStore, JsMap.entries, Obj.entries. simpl.
  now rewrite map_of_entries_distinct.
Qed.

Lemma map_set_commutes (V : Type) (m : JsMap.t V) (a b : string) (x y : V) :
  a <> b ->
  In a (JsMap.keys m) \/ In b (JsMap.keys m) ->
  JsMap.set a x (JsMap.set b y m) = JsMap.set b y (JsMap.set a x m).
Proof.
  intros Hne.
  assert (String.eqb a b = false) as Hab by now apply String.eqb_neq.
  assert (String.eqb b a = false) as Hba
    by (apply String.eqb_neq; congruence).
  induction m as [| [k v] rest IH]; simpl; intros Hin.
  - destruct Hin as [[] | []].
  - destruct (String.eqb k b) eqn:Eb; destruct (String.eqb k a) eqn:Ea; simpl;
      rewrite ?Ea, ?Eb; simpl.
    + apply String.eqb_eq in Eb. apply String.eqb_eq in Ea. congruence.
    + apply String.eqb_eq in Eb. subst k.
      now rewrite ?Hba, ?String.eqb_refl.
    + apply String.eqb_eq in Ea. subst k.
      now rewrite ?Hab, ?String.eqb_refl.
    + f_equal. apply IH.
      apply String.eqb_neq in Ea. apply String.eqb_neq in Eb.
      destruct Hin as [[Hk | Hin] | [Hk | Hin]];
        [congruence | now left | congruence | now right].
Qed.

(** X8. Two [set] calls on different names commute when the registry
    already holds one of the names: either order leaves the same store,
    export order included.  When it holds neither, the two new names are
    exported last, in the order of the calls. *)
Theorem set_commutes_on_known_name this (a b : string) (x y : HyperFunctionData Ctx) :
  a <> b ->
  (In a (tool_names (asTools this)) \/ In b (tool_names (asTools this)) ->
   set (set this b y) a x = set (set this a x) b y)
  /\ (~ In a (tool_names (asTools this)) ->
      ~ In b (tool_names (asTools this)) ->
      tool_names (asTools (set (set this b y) a x))
      = tool_names (asTools this) ++ [b; a]).
Proof.
  intros Hne. rewrite !asTools_names. split.
  - intros Hin. unfold set. simpl. f_equal. now apply map_set_commutes.
  - intros Ha Hb. simpl.
    rewrite (@map_set_absent _ (functions this) b y Hb).
    rewrite map_set_absent.
    + unfold JsMap.keys. rewrite !map_app. simpl.
      now rewrite <- app_assoc.
    + unfold JsMap.keys. rewrite map_app. simpl.
      intros Hin. apply in_app_or in Hin.
      destruct Hin as [Hin | [Heq | []]]; [now apply Ha | congruence].
Qed.

(** X9. In every store made by [hyperStore] and [set], the names of the
    exported descriptors are pairwise distinct. *)
Theorem asTools_names_are_distinct
    (fns : JsRecord (HyperFunctionData Ctx))
    (ops : list (string * HyperFunctionData Ctx)) :
  NoDup (tool_names (asTools (store_after fns ops))).
Proof.
  rewrite asTools_names. apply store_names_distinct.
Qed.

End RegistryComposition.

(* ------------------------------------------------------------------ *)
(** * The compositions on the worked registry *)
(* ------------------------------------------------------------------ *)

Module ScenarioCompositions.
Import Scenario.

Local Open Scope string_scope.




(** [add_two] called on [{"a":"x","b":3}] is rejected with a message
    that names [add_two]; its handler is not called. *)
Lemma callTool_invalid_arguments_message_witness :
  fst (callTool store (request "add_two" bad_arguments) "session-1" start)
  = Rejected (Error (ind (bad_arguments_text "add_two")))
  /\ calls (snd (callTool store (request "add_two" bad_arguments)
                   "session-1" start)) = []
  /\ contains "add_two" (ind (bad_arguments_text "add_two")).
Proof.
  destruct (@callTool_invalid_arguments_message runtime zod indoc Session
              store (request "add_two" bad_arguments) "session-1" start
              add_two _ _ eq_refl eq_refl eq_refl)
    as [Hrun [Hcalls [_ Hmessage]]].
  split; [exact Hrun |]. split; [exact Hcalls |].
  exact (Hmessage scenario_ind_strips eq_refl).
Defined.

(** Replacing [add_two] leaves the descriptor of [greet]. *)
Lemma set_keeps_other_descriptors_witness :
  tools_named "greet" (asTools (set store "add_two" broken))
  = tools_named "greet" (asTools store).
Proof.
  apply (@set_keeps_other_descriptors runtime zod converter Session
           store "add_two" broken "greet").
  discriminate.
Defined.

(** Two descriptors stay two when [add_two] is replaced, and become
    three with a new name. *)
Lemma set_grows_by_at_most_one_witness :
  length (asTools (set store "add_two" broken)) = length (asTools store)
  /\ length (asTools (set store "parse_date" broken))
     = S (length (asTools store)).
Proof.
  split.
  - exact (proj1 (@set_grows_by_at_most_one runtime zod converter Session
                    store "add_two" broken) add_two eq_refl).
  - exact (proj2 (@set_grows_by_at_most_one runtime zod converter Session
                    store "parse_date" broken) eq_refl).
Defined.

(** The worked registry exports [add_two], then [greet]. *)
Lemma hyperStore_exports_every_definition_witness :
  asTools store
  = [hyperFunctionToTool "add_two" add_two; hyperFunctionToTool "greet" greet].
Proof.
  exact (@hyperStore_exports_every_definition runtime zod converter Session
           [("add_two", add_two); ("greet", greet)]
           ScenarioFacts.scenario_names_distinct).
Defined.

(** Setting a new name and replacing [add_two] commute; two new names
    are exported in the order they were set. *)
Lemma set_commutes_on_known_name_witness :
  set (set store "parse_date" add_two) "add_two" broken
  = set (set store "add_two" broken) "parse_date" add_two
  /\ tool_names (asTools (set (set store "parse_date" add_two) "add_hours" broken))
     = (tool_names (asTools store) ++ ["parse_date"; "add_hours"])%list.
Proof.
  split.
  - apply (proj1 (@set_commutes_on_known_name runtime zod converter Session
                    store "add_two" "parse_date" broken add_two
                    ltac:(discriminate))).
    left. simpl. now left.
  - apply (proj2 (@set_commutes_on_known_name runtime zod converter Session
                    store "add_hours" "parse_date" broken add_two
                    ltac:(discriminate))).
    + simpl. intros [H | [H | []]]; discriminate H.
    + simpl. intros [H | [H | []]]; discriminate H.
Defined.

End ScenarioCompositions.
